(** * generate_gltf_bin.py: the cube geometry emitter

    A shallow embedding of the script that packs the four constant arrays
    of a cube mesh (positions, normals, colors, indices) with [struct.pack]
    and writes the result to [models/scene.bin].

    - Python floats are IEEE-754 binary64 values, modelled with the
      Standard Library's [spec_float] at precision 53.
    - [struct.pack('f', v)] rounds to binary32 and emits four bytes in the
      byte order of the host; [struct.pack('I', i)] emits an unsigned 32-bit
      integer the same way.  The host byte order is an explicit argument.
    - The file system and the standard output are an explicit state that the
      program threads through a small state-and-exception monad; opening,
      writing and printing can each raise. *)

From Stdlib Require Import ZArith QArith Qabs Strings.Ascii Strings.Byte Floats.SpecFloat.
From stdpp Require Import gmap strings list pretty.

Local Open Scope Z_scope.

(** ** Python floats *)

Module PyFloat.

(** binary64: 53 bits of precision, exponents below 1024. *)
Definition prec64 : Z := 53.
Definition emax64 : Z := 1024.
(** binary32: 24 bits of precision, exponents below 128. *)
Definition prec32 : Z := 24.
Definition emax32 : Z := 128.

(** An integer that fits the mantissa, as a double. *)
Definition of_Z (n : Z) : spec_float := binary_normalize prec64 emax64 n 0 false.

(** The value of a decimal literal [digits * 10^-scale].  Both [digits]
    and [10^scale] are exact doubles for the literals of the script, so the
    correctly rounded quotient is the double nearest to the decimal (the
    fast path of the runtime's string-to-double conversion). *)
Definition literal (digits : Z) (scale : Z) : spec_float :=
  SFdiv prec64 emax64 (of_Z digits) (of_Z (10 ^ scale)).

(** Unary minus of the source: [-1.0] is the negation of the literal [1.0]. *)
Definition neg (x : spec_float) : spec_float := SFopp x.

Definition mul (x y : spec_float) : spec_float := SFmul prec64 emax64 x y.
Definition add (x y : spec_float) : spec_float := SFadd prec64 emax64 x y.
Definition eqb (x y : spec_float) : bool := SFeqb x y.
Definition ltb (x y : spec_float) : bool := SFltb x y.

(** The C cast [(float)x] performed by the 'f' format: round to nearest
    even at binary32 precision. *)
Definition to_single (x : spec_float) : spec_float :=
  match x with
  | S754_finite s m e => binary_normalize prec32 emax32 (cond_Zopp s (Zpos m)) e s
  | _ => x
  end.

(** Widening a binary32 value back to a double, as unpacking does; exact. *)
Definition of_single (x : spec_float) : spec_float :=
  match x with
  | S754_finite s m e => binary_normalize prec64 emax64 (cond_Zopp s (Zpos m)) e s
  | _ => x
  end.

(** The double that holds [x] rounded to single precision. *)
Definition float32_value (x : spec_float) : spec_float := of_single (to_single x).

Definition sign_bit (x : spec_float) : bool :=
  match x with
  | S754_zero s | S754_infinity s | S754_finite s _ _ => s
  | S754_nan => false
  end.

(** [math.copysign(1.0, x)]. *)
Definition sign (x : spec_float) : spec_float :=
  if sign_bit x then neg (of_Z 1) else of_Z 1.

(** The IEEE-754 binary32 interchange encoding: sign in bit 31, biased
    exponent in bits 30..23, fraction in bits 22..0. *)
Definition bits32 (x : spec_float) : Z :=
  let sgn (s : bool) := if s then Z.shiftl 1 31 else 0 in
  match x with
  | S754_zero s => sgn s
  | S754_infinity s => Z.lor (sgn s) (Z.shiftl 255 23)
  | S754_nan => Z.lor (Z.shiftl 255 23) (Z.shiftl 1 22)
  | S754_finite s m e =>
      if Zpos m <? Z.shiftl 1 23
      then Z.lor (sgn s) (Zpos m)
      else Z.lor (sgn s)
             (Z.lor (Z.shiftl (e + 150) 23) (Z.land (Zpos m) (Z.ones 23)))
  end.

Definition of_bits32 (w : Z) : spec_float :=
  let s := Z.testbit w 31 in
  let ex := Z.land (Z.shiftr w 23) 255 in
  let fr := Z.land w (Z.ones 23) in
  if ex =? 0 then
    if fr =? 0 then S754_zero s else S754_finite s (Z.to_pos fr) (-149)
  else if ex =? 255 then
    if fr =? 0 then S754_infinity s else S754_nan
  else S754_finite s (Z.to_pos (Z.lor fr (Z.shiftl 1 23))) (ex - 150).

(** The exact rational value of a finite float. *)
Definition to_Q (x : spec_float) : Q :=
  match x with
  | S754_finite s m e =>
      let n := cond_Zopp s (Zpos m) in
      if 0 <=? e then inject_Z (n * 2 ^ e) else Qmake n (Z.to_pos (2 ^ (- e)))
  | _ => 0%Q
  end.

End PyFloat.

(** ** The struct module *)

Inductive exn : Type :=
| FileNotFoundError
| NotADirectoryError
| IsADirectoryError
| PermissionError
| NoSpaceError
| StdoutError
| StructError.

(** The errors of the file system are the subclasses of [OSError]. *)
Definition is_OSError (e : exn) : bool :=
  match e with
  | FileNotFoundError | NotADirectoryError | IsADirectoryError
  | PermissionError | NoSpaceError | StdoutError => true
  | StructError => false
  end.

(** [sys.byteorder] of the host that runs the script. *)
Inductive byteorder : Type := LittleEndian | BigEndian.

Module Struct.

Definition byte_of_Z (z : Z) : byte :=
  match Byte.of_N (Z.to_N (Z.land z 255)) with
  | Some b => b
  | None => x00
  end.

Definition Z_of_byte (b : byte) : Z := Z.of_N (Byte.to_N b).

(** The four bytes of a 32-bit word, least significant first. *)
Definition le_bytes (w : Z) : list byte :=
  [byte_of_Z w; byte_of_Z (Z.shiftr w 8);
   byte_of_Z (Z.shiftr w 16); byte_of_Z (Z.shiftr w 24)].

(** The four bytes of a 32-bit word, most significant first. *)
Definition be_bytes (w : Z) : list byte :=
  [byte_of_Z (Z.shiftr w 24); byte_of_Z (Z.shiftr w 16);
   byte_of_Z (Z.shiftr w 8); byte_of_Z w].

(** Formats without a byte-order prefix use the order of the host. *)
Definition native_bytes (bo : byteorder) (w : Z) : list byte :=
  match bo with
  | LittleEndian => le_bytes w
  | BigEndian => be_bytes w
  end.

Definition le_word (bs : list byte) : option Z :=
  match bs with
  | [b0; b1; b2; b3] =>
      Some (Z.lor (Z_of_byte b0)
             (Z.lor (Z.shiftl (Z_of_byte b1) 8)
               (Z.lor (Z.shiftl (Z_of_byte b2) 16) (Z.shiftl (Z_of_byte b3) 24))))
  | _ => None
  end.

Definition native_word (bo : byteorder) (bs : list byte) : option Z :=
  match bo with
  | LittleEndian => le_word bs
  | BigEndian => le_word (rev bs)
  end.

(** [struct.pack('f', x)] in native mode: the C cast [(float)x] and a copy
    of its four bytes.  It raises nothing: a double beyond the range of
    single precision is stored as an infinity.  ([spec_float] has one NaN,
    so the sign and payload of a NaN are not represented; the arrays of the
    script hold none.) *)
Definition pack_f (bo : byteorder) (x : spec_float) : exn + list byte :=
  inr (native_bytes bo (PyFloat.bits32 (PyFloat.to_single x))).

(** [struct.pack('I', i)]: an integer outside [0, 2^32) raises
    [struct.error]. *)
Definition pack_I (bo : byteorder) (i : Z) : exn + list byte :=
  if (0 <=? i) && (i <? 2 ^ 32)
  then inr (native_bytes bo i)
  else inl StructError.

(** [struct.unpack('f', bs)[0]] and [struct.unpack('I', bs)[0]]. *)
Definition unpack_f (bo : byteorder) (bs : list byte) : option spec_float :=
  match native_word bo bs with
  | Some w => Some (PyFloat.of_single (PyFloat.of_bits32 w))
  | None => None
  end.

Definition unpack_I (bo : byteorder) (bs : list byte) : option Z :=
  native_word bo bs.

End Struct.

(** ** The constant arrays of the script *)

Import PyFloat.

Definition f_1_0 : spec_float := literal 10 1.
Definition f_0_0 : spec_float := literal 0 1.
Definition f_0_5 : spec_float := literal 5 1.
Definition f_0_577 : spec_float := literal 577 3.

Definition positions : list spec_float :=
  [ neg f_1_0; neg f_1_0; neg f_1_0;
    f_1_0; neg f_1_0; neg f_1_0;
    f_1_0; f_1_0; neg f_1_0;
    neg f_1_0; f_1_0; neg f_1_0;
    neg f_1_0; neg f_1_0; f_1_0;
    f_1_0; neg f_1_0; f_1_0;
    f_1_0; f_1_0; f_1_0;
    neg f_1_0; f_1_0; f_1_0 ].

Definition normals : list spec_float :=
  [ neg f_0_577; neg f_0_577; neg f_0_577;
    f_0_577; neg f_0_577; neg f_0_577;
    f_0_577; f_0_577; neg f_0_577;
    neg f_0_577; f_0_577; neg f_0_577;
    neg f_0_577; neg f_0_577; f_0_577;
    f_0_577; neg f_0_577; f_0_577;
    f_0_577; f_0_577; f_0_577;
    neg f_0_577; f_0_577; f_0_577 ].

Definition colors : list spec_float :=
  [ f_1_0; f_0_0; f_0_0;
    f_0_0; f_1_0; f_0_0;
    f_0_0; f_0_0; f_1_0;
    f_1_0; f_1_0; f_0_0;
    f_1_0; f_0_0; f_1_0;
    f_0_0; f_1_0; f_1_0;
    f_1_0; f_1_0; f_1_0;
    f_0_5; f_0_5; f_0_5 ].

Definition indices : list Z :=
  [ 0; 1; 2; 2; 3; 0;
    4; 6; 5; 6; 4; 7;
    4; 0; 3; 3; 7; 4;
    1; 5; 6; 6; 2; 1;
    3; 2; 6; 6; 7; 3;
    4; 5; 1; 1; 0; 4 ].

(** ** Packing *)

(** One [for x in xs: data += pack(x)] loop; the first exception ends it. *)
Fixpoint pack_loop {A : Type} (pack : A -> exn + list byte)
    (xs : list A) (data : list byte) : exn + list byte :=
  match xs with
  | [] => inr data
  | x :: rest =>
      match pack x with
      | inl e => inl e
      | inr bs => pack_loop pack rest (data ++ bs)
      end
  end.

Definition and_then {A B : Type} (r : exn + A) (k : A -> exn + B) : exn + B :=
  match r with
  | inl e => inl e
  | inr a => k a
  end.

(** The value of [data] after the four loops, on a host of byte order [bo]. *)
Definition data (bo : byteorder) : exn + list byte :=
  and_then (pack_loop (Struct.pack_f bo) positions []) (fun d1 =>
  and_then (pack_loop (Struct.pack_f bo) normals d1) (fun d2 =>
  and_then (pack_loop (Struct.pack_f bo) colors d2) (fun d3 =>
  pack_loop (Struct.pack_I bo) indices d3))).

(** ** The file system and the standard output *)

(** A path names a directory or a regular file; [writable] is the access the
    process has: creating entries in a directory, opening a file for
    writing. *)
Inductive node : Type :=
| Dir (writable : bool)
| File (writable : bool) (content : list byte).

Record world : Type := World {
  fs : gmap string node;       (* paths relative to the working directory *)
  disk_free : nat;             (* bytes the device can still store *)
  stdout : list string;        (* lines printed so far *)
  stdout_room : nat            (* lines the standard output still takes *)
}.

Fixpoint has_slash (s : string) : bool :=
  match s with
  | EmptyString => false
  | String c rest => bool_decide (c = "/"%char) || has_slash rest
  end.

(** The directory that holds [path]: the text before its last slash. *)
Fixpoint parent (path : string) : string :=
  match path with
  | EmptyString => EmptyString
  | String c rest => if has_slash rest then String c (parent rest) else EmptyString
  end.

(** Computations that read and change the world and may raise. *)
Definition M (A : Type) : Type := world -> (exn + A) * world.

Definition ret {A : Type} (a : A) : M A := fun w => (inr a, w).

Definition raise {A : Type} (e : exn) : M A := fun w => (inl e, w).

Definition bind {A B : Type} (c : M A) (k : A -> M B) : M B :=
  fun w =>
    match c w with
    | (inl e, w') => (inl e, w')
    | (inr a, w') => k a w'
    end.

Definition lift {A : Type} (r : exn + A) : M A :=
  match r with
  | inl e => raise e
  | inr a => ret a
  end.

Notation "'let*' x := c 'in' k" := (bind c (fun x => k))
  (at level 10, x name, c at level 100, k at level 200).

Definition set_file (path : string) (n : node) (w : world) : world :=
  World (<[path := n]> (fs w)) (disk_free w) (stdout w) (stdout_room w).

(** The device gets [n] bytes back. *)
Definition release (n : nat) (w : world) : world :=
  World (fs w) (disk_free w + n) (stdout w) (stdout_room w).

(** [open(path, 'wb')]: the file is created, or truncated when it exists,
    which gives the bytes of its old content back to the device.  The
    handle is the path of the open file. *)
Definition open_wb (path : string) : M string :=
  fun w =>
    match fs w !! parent path with
    | None => (inl FileNotFoundError, w)
    | Some (File _ _) => (inl NotADirectoryError, w)
    | Some (Dir dir_writable) =>
        match fs w !! path with
        | Some (Dir _) => (inl IsADirectoryError, w)
        | Some (File file_writable old) =>
            if file_writable
            then (inr path, release (length old) (set_file path (File true []) w))
            else (inl PermissionError, w)
        | None =>
            if dir_writable
            then (inr path, set_file path (File true []) w)
            else (inl PermissionError, w)
        end
    end.

Definition append (bs : list byte) (n : node) : node :=
  match n with
  | File wr content => File wr (content ++ bs)
  | Dir wr => Dir wr
  end.

(** [f.write(bs)] followed by the close at the end of the [with] block:
    the bytes reach the file, or as many as the device can take before it
    reports that it is full. *)
Definition write (f : string) (bs : list byte) : M nat :=
  fun w =>
    if (length bs <=? disk_free w)%nat
    then (inr (length bs),
          World (alter (append bs) f (fs w)) (disk_free w - length bs)
            (stdout w) (stdout_room w))
    else (inl NoSpaceError,
          World (alter (append (take (disk_free w) bs)) f (fs w)) 0
            (stdout w) (stdout_room w)).

(** [print(line)]: the line goes to the standard output, unless that cannot
    take it (a closed pipe, a full device, a size limit), which raises an
    [OSError]. *)
Definition print (line : string) : M unit :=
  fun w =>
    match stdout_room w with
    | O => (inl StdoutError, w)
    | S room => (inr tt, World (fs w) (disk_free w) (stdout w ++ [line]) room)
    end.

(** ** The script *)

Definition scene_bin : string := "models/scene.bin".

Definition main (bo : byteorder) : M unit :=
  let* d := lift (data bo) in
  let* f := open_wb scene_bin in
  let* _ := write f d in
  let* _ := print ("Generated scene.bin with " +:+ pretty (length d) +:+ " bytes") in
  print "Place this file in the models/ directory alongside scene.gltf".

(** ** Reading the buffer back *)

(** The Python slice [bs[a:b]]. *)
Definition slice (a b : nat) (bs : list byte) : list byte := take (b - a) (drop a bs).

(** Unpacking consecutive 4-byte items, as [struct.iter_unpack] does. *)
Fixpoint unpack_items {A : Type} (unpack : list byte -> option A)
    (bs : list byte) : option (list A) :=
  match bs with
  | [] => Some []
  | b0 :: b1 :: b2 :: b3 :: rest =>
      match unpack [b0; b1; b2; b3], unpack_items unpack rest with
      | Some x, Some xs => Some (x :: xs)
      | _, _ => None
      end
  | _ => None
  end.

(** Consecutive triples of a flat array: the vertices of an attribute array,
    the triangles of the index array. *)
Fixpoint triples {A : Type} (xs : list A) : list (A * A * A) :=
  match xs with
  | a :: b :: c :: rest => (a, b, c) :: triples rest
  | _ => []
  end.

(** The squared length of a vector, in double arithmetic and exactly. *)
Definition norm2 (v : spec_float * spec_float * spec_float) : spec_float :=
  let '(x, y, z) := v in add (add (mul x x) (mul y y)) (mul z z).

Definition norm2_exact (v : spec_float * spec_float * spec_float) : Q :=
  let '(x, y, z) := v in
  (to_Q x * to_Q x + to_Q y * to_Q y + to_Q z * to_Q z)%Q.

(** The 32-bit word stored for each element, in file order. *)
Definition words : list Z :=
  map (fun x => bits32 (to_single x)) (positions ++ normals ++ colors) ++ indices.

(** Byte [j] of the four bytes of [w] when the least significant byte comes
    first, and when the most significant byte comes first. *)
Definition little_endian (w : Z) : list byte :=
  map (fun j => Struct.byte_of_Z (Z.land (Z.shiftr w (8 * j)) 255)) [0; 1; 2; 3].

Definition big_endian (w : Z) : list byte :=
  map (fun j => Struct.byte_of_Z (Z.land (Z.shiftr w (8 * (3 - j))) 255)) [0; 1; 2; 3].

(** The two lines a complete run prints. *)
Definition report : list string :=
  ["Generated scene.bin with 432 bytes";
   "Place this file in the models/ directory alongside scene.gltf"].

(** Some worlds to run the script in. *)

(** A fresh directory that holds an empty, writable [models/]. *)
Definition temp_dir : world :=
  World {[ "models" := Dir true ]} 4096 [] 8.



(** [models/] is read-only but already holds a writable [scene.bin]. *)
Definition read_only_models : world :=
  World (<[ "models/scene.bin" := File true [x01; x02] ]> {[ "models" := Dir false ]})
    4096 [] 8.

(** ** Definitions for the further properties *)

(** The sign field of a binary32 word. *)
Definition sign_field (s : bool) : Z := if s then Z.shiftl 1 31 else 0.

(** A binary32 word assembled from its three fields. *)
Definition word32 (s : bool) (E F : Z) : Z :=
  Z.lor (sign_field s) (Z.lor (Z.shiftl E 23) F).

(** The same bytes with every group of four reversed. *)
Fixpoint swap32 (bs : list byte) : list byte :=
  match bs with
  | b0 :: b1 :: b2 :: b3 :: rest => b3 :: b2 :: b1 :: b0 :: swap32 rest
  | _ => bs
  end.

(** Whether [open('models/scene.bin', 'wb')] is granted. *)
Definition can_open (w : world) : bool :=
  match fs w !! "models" with
  | Some (Dir dir_writable) =>
      match fs w !! scene_bin with
      | None => dir_writable
      | Some (File file_writable _) => file_writable
      | Some (Dir _) => false
      end
  | _ => false
  end.

(** The bytes [models/scene.bin] holds before a run. *)
Definition old_size (w : world) : nat :=
  match fs w !! scene_bin with
  | Some (File _ old) => length old
  | _ => 0%nat
  end.

(** The first line of the report. *)
Definition generated_line : string := "Generated scene.bin with 432 bytes".

(** The two prints that end the script, once the byte count is known. *)
Definition print_report : M unit :=
  let* _ := print generated_line in
  print "Place this file in the models/ directory alongside scene.gltf".

(** A fresh directory with [models/] whose standard output is closed. *)
Definition closed_stdout : world := World {[ "models" := Dir true ]} 4096 [] 0.

(** The same, with a standard output that takes one more line. *)
Definition one_line_left : world := World {[ "models" := Dir true ]} 4096 [] 1.

(** The integers the 'I' format accepts. *)
Definition in_range (i : Z) : Prop := 0 <= i < 2 ^ 32.

(** * Properties *)

(** ** The literals *)

(** The double chosen for [0.577] is the one nearest to 577/1000: the error
    is at most half a unit in the last place (2^-54 here). *)
Lemma literal_0_577_nearest :
  (Qabs (to_Q f_0_577 - (577 # 1000)) <= (1 # 18014398509481984))%Q.
Proof. vm_compute. discriminate. Qed.

Lemma literal_values :
  f_1_0 = S754_finite false (2 ^ 52) (-52) /\
  f_0_5 = S754_finite false (2 ^ 52) (-53) /\
  f_0_0 = S754_zero false /\
  f_0_577 = S754_finite false 5197153969985552 (-53).
Proof. vm_compute. repeat split. Qed.

(** Single precision holds 1.0, 0.0 and 0.5 exactly, but not 0.577. *)
Lemma float32_exact_literals :
  float32_value f_1_0 = f_1_0 /\ float32_value (neg f_1_0) = neg f_1_0 /\
  float32_value f_0_0 = f_0_0 /\ float32_value f_0_5 = f_0_5.
Proof. vm_compute. repeat split. Qed.

Lemma float32_rounds_0_577 :
  float32_value f_0_577 <> f_0_577 /\
  to_single f_0_577 = S754_finite false 9680454 (-24).
Proof. vm_compute. split; [discriminate | reflexivity]. Qed.

(** ** The constant arrays *)

(** C3: the three attribute arrays have 8 * 3 = 24 components each, the
    index array has 36 entries, every index lies in [0, 7], and the number
    of indices is a multiple of 3. *)
Theorem C3_array_invariant :
  length positions = (8 * 3)%nat /\
  length normals = (8 * 3)%nat /\
  length colors = (8 * 3)%nat /\
  length indices = 36%nat /\
  Forall (fun i => 0 <= i <= 7) indices /\
  (length indices mod 3 = 0)%nat.
Proof.
  repeat split; try reflexivity.
  unfold indices. repeat (apply List.Forall_cons; [lia |]). apply List.Forall_nil.
Qed.

(** C9: the index array encodes 12 triangles, and the three vertices of each
    are pairwise distinct. *)
Theorem C9_triangles_not_degenerate :
  length (triples indices) = 12%nat /\
  Forall (fun t => let '(a, b, c) := t in a <> b /\ b <> c /\ a <> c)
    (triples indices).
Proof.
  split; [reflexivity |].
  unfold indices; simpl.
  repeat (apply List.Forall_cons; [repeat split; discriminate |]). apply List.Forall_nil.
Qed.

(** C10: at every component position below 24 the position is -1.0 or 1.0
    and the normal is 0.577 times the sign of the position; the two have
    the same sign. *)
Theorem C10_normals_follow_positions (i : nat) :
  (i < 24)%nat ->
  exists p n,
    positions !! i = Some p /\ normals !! i = Some n /\
    (p = neg f_1_0 \/ p = f_1_0) /\
    n = mul f_0_577 (sign p) /\
    sign_bit n = sign_bit p.
Proof.
  intros Hi.
  do 24 (destruct i as [| i];
         [ eexists; eexists; split; [reflexivity |]; split; [reflexivity |];
           split; [(left; reflexivity) || (right; reflexivity) |];
           split; vm_compute; reflexivity
         | ]).
  lia.
Qed.

Lemma C10_witness :
  exists p n,
    positions !! 3%nat = Some p /\ normals !! 3%nat = Some n /\
    (p = neg f_1_0 \/ p = f_1_0) /\
    n = mul f_0_577 (sign p) /\
    sign_bit n = sign_bit p.
Proof. apply (C10_normals_follow_positions 3). lia. Defined.

(** Each normal points away from the origin: its dot product with the
    position of the same vertex is positive. *)
Lemma normals_point_outward :
  Forall2 (fun p n =>
      let '(px, py, pz) := p in
      let '(nx, ny, nz) := n in
      ltb f_0_0 (add (add (mul px nx) (mul py ny)) (mul pz nz)) = true)
    (triples positions) (triples normals).
Proof.
  unfold positions, normals; cbn [triples].
  repeat (apply List.Forall2_cons; [vm_compute; reflexivity |]). apply List.Forall2_nil.
Qed.

(** C4, as stated, fails: the squared length of the first normal is not 1,
    neither in double arithmetic nor exactly. *)
Lemma C4_first_normal_not_unit :
  exists v,
    triples normals !! 0%nat = Some v /\
    eqb (norm2 v) f_1_0 = false /\
    ~ (norm2_exact v == 1)%Q.
Proof.
  eexists. split; [reflexivity |]. split; [vm_compute; reflexivity |].
  vm_compute. discriminate.
Qed.

(** C4, amended: every normal has the same squared length, 3 * 0.577^2,
    which lies strictly between 0.998786 and 0.998788; the normals are unit
    vectors only up to the three decimals kept in the literal. *)
Theorem C4_normals_nearly_unit (v : nat) :
  (v < 8)%nat ->
  exists n,
    triples normals !! v = Some n /\
    ((998786 # 1000000) < norm2_exact n)%Q /\
    (norm2_exact n < (998788 # 1000000))%Q /\
    ltb (norm2 n) f_1_0 = true.
Proof.
  intros Hv.
  do 8 (destruct v as [| v];
        [ eexists; split; [reflexivity |]; repeat split; vm_compute; reflexivity
        | ]).
  lia.
Qed.

Lemma C4_witness :
  exists n,
    triples normals !! 5%nat = Some n /\
    ((998786 # 1000000) < norm2_exact n)%Q /\
    (norm2_exact n < (998788 # 1000000))%Q /\
    ltb (norm2 n) f_1_0 = true.
Proof. apply (C4_normals_nearly_unit 5). lia. Defined.

(** ** Packing in general *)

Lemma testbit_255 (k : Z) : Z.testbit 255 k = (0 <=? k) && (k <? 8).
Proof. change 255 with (Z.ones 8). apply Z.testbit_ones. lia. Qed.

Lemma land_255_range (z : Z) : 0 <= Z.land z 255 <= 255.
Proof.
  assert (Hmod : Z.land z 255 = z mod 256) by (apply (Z.land_ones z 8); lia).
  rewrite Hmod. pose proof (Z.mod_pos_bound z 256). lia.
Qed.

Lemma Z_of_byte_of_Z (z : Z) : Struct.Z_of_byte (Struct.byte_of_Z z) = Z.land z 255.
Proof.
  unfold Struct.Z_of_byte, Struct.byte_of_Z.
  pose proof (land_255_range z) as Hr.
  destruct (Byte.of_N (Z.to_N (Z.land z 255))) as [b |] eqn:E.
  - apply Byte.to_of_N in E. rewrite E. apply Z2N.id. lia.
  - apply Byte.of_N_None_iff in E. lia.
Qed.

(** Bit [n] of the byte of [w] at offset [s], put back at offset [s]. *)
Lemma byte_field_bit (w s n : Z) :
  0 <= s -> 0 <= n ->
  Z.testbit (Z.shiftl (Z.land (Z.shiftr w s) 255) s) n
  = Z.testbit w n && ((s <=? n) && (n <? s + 8)).
Proof.
  intros Hs Hn. rewrite Z.shiftl_spec by lia.
  destruct (Z.lt_ge_cases n s) as [Hlt | Hge].
  - rewrite Z.testbit_neg_r by lia.
    replace (s <=? n) with false by lia. rewrite andb_false_r. reflexivity.
  - rewrite Z.land_spec, Z.shiftr_spec, testbit_255 by lia.
    replace (n - s + s) with n by lia.
    f_equal. destruct (s <=? n) eqn:E1, (n <? s + 8) eqn:E2; lia.
Qed.

Lemma le_word_le_bytes (w : Z) :
  0 <= w < 2 ^ 32 -> Struct.le_word (Struct.le_bytes w) = Some w.
Proof.
  intros Hw. unfold Struct.le_word, Struct.le_bytes.
  rewrite !Z_of_byte_of_Z. f_equal.
  rewrite <- (Z.shiftl_0_r (Z.land w 255)), <- (Z.shiftr_0_r w) at 1.
  apply Z.bits_inj'. intros n Hn.
  rewrite !Z.lor_spec, !byte_field_bit by lia.
  destruct (Z.lt_ge_cases n 32) as [Hlt | Hge].
  - destruct (Z.testbit w n); [| reflexivity]. cbn [andb].
    destruct (0 <=? n) eqn:E0, (n <? 0 + 8) eqn:E1, (8 <=? n) eqn:E2,
      (n <? 8 + 8) eqn:E3, (16 <=? n) eqn:E4, (n <? 16 + 8) eqn:E5,
      (24 <=? n) eqn:E6, (n <? 24 + 8) eqn:E7; try reflexivity; lia.
  - assert (Hhigh : Z.testbit w n = false).
    { rewrite <- (Z.mod_small w (2 ^ 32)) by lia.
      apply Z.mod_pow2_bits_high. lia. }
    rewrite Hhigh. reflexivity.
Qed.

Lemma native_word_native_bytes (bo : byteorder) (w : Z) :
  0 <= w < 2 ^ 32 -> Struct.native_word bo (Struct.native_bytes bo w) = Some w.
Proof.
  intros Hw. destruct bo; [exact (le_word_le_bytes w Hw) |].
  change (Struct.native_word BigEndian (Struct.native_bytes BigEndian w))
    with (Struct.le_word (Struct.le_bytes w)).
  exact (le_word_le_bytes w Hw).
Qed.

(** Unpacking undoes packing for every integer the 'I' format accepts. *)
Lemma unpack_I_pack_I (bo : byteorder) (i : Z) (bs : list byte) :
  Struct.pack_I bo i = inr bs -> Struct.unpack_I bo bs = Some i.
Proof.
  unfold Struct.pack_I, Struct.unpack_I.
  destruct ((0 <=? i) && (i <? 2 ^ 32)) eqn:Hi; [| discriminate].
  intros H. injection H as <-. apply native_word_native_bytes. lia.
Qed.

Lemma pack_f_length (bo : byteorder) (x : spec_float) (bs : list byte) :
  Struct.pack_f bo x = inr bs -> length bs = 4%nat.
Proof.
  unfold Struct.pack_f.
  intros H. injection H as <-. destruct bo; reflexivity.
Qed.

Lemma pack_I_length (bo : byteorder) (i : Z) (bs : list byte) :
  Struct.pack_I bo i = inr bs -> length bs = 4%nat.
Proof.
  unfold Struct.pack_I.
  destruct ((0 <=? i) && (i <? 2 ^ 32)); [| discriminate].
  intros H. injection H as <-. destruct bo; reflexivity.
Qed.

(** Every loop of the script appends four bytes per element. *)
Section PackLoop.

Context {A : Type} (pack : A -> exn + list byte).
Hypothesis pack_four : forall x bs, pack x = inr bs -> length bs = 4%nat.

Lemma pack_loop_length (xs : list A) :
  forall acc d,
    pack_loop pack xs acc = inr d ->
    length d = (length acc + 4 * length xs)%nat.
Proof.
  induction xs as [| x rest IH]; intros acc d Hloop; simpl in Hloop.
  - injection Hloop as <-. simpl. lia.
  - destruct (pack x) as [e | bs] eqn:Hx; [discriminate |].
    apply IH in Hloop. rewrite Hloop, length_app, (pack_four x bs Hx).
    simpl. lia.
Qed.

End PackLoop.

Lemma data_length (bo : byteorder) (d : list byte) :
  data bo = inr d -> length d = 432%nat.
Proof.
  unfold data, and_then. intros Hd.
  destruct (pack_loop (Struct.pack_f bo) positions []) as [e | d1] eqn:H1; [discriminate |].
  destruct (pack_loop (Struct.pack_f bo) normals d1) as [e | d2] eqn:H2; [discriminate |].
  destruct (pack_loop (Struct.pack_f bo) colors d2) as [e | d3] eqn:H3; [discriminate |].
  apply (pack_loop_length _ (pack_f_length bo)) in H1, H2, H3.
  apply (pack_loop_length _ (pack_I_length bo)) in Hd.
  rewrite Hd, H3, H2, H1. reflexivity.
Qed.

(** ** The packed buffer *)

(** The packing loops raise nothing on the constants of the script. *)
Lemma data_packed (bo : byteorder) :
  exists d, data bo = inr d /\ length d = 432%nat.
Proof.
  assert (Hd : exists d, data bo = inr d)
    by (destruct bo; vm_compute; eexists; reflexivity).
  destruct Hd as [d Hd]. exists d. split; [exact Hd |].
  exact (data_length bo d Hd).
Qed.

Lemma pretty_432 : pretty 432%nat = "432".
Proof. vm_compute. reflexivity. Qed.

(** C2: on either host, bytes [0,96) of the buffer unpack to the 24
    positions, bytes [96,192) to the 24 single-precision values of the
    normals, bytes [192,288) to the 24 colors and bytes [288,432) to the 36
    indices, each in the order of its array. *)
Theorem C2_buffer_layout (bo : byteorder) :
  exists d,
    data bo = inr d /\
    unpack_items (Struct.unpack_f bo) (slice 0 96 d) = Some positions /\
    unpack_items (Struct.unpack_f bo) (slice 96 192 d)
      = Some (map float32_value normals) /\
    unpack_items (Struct.unpack_f bo) (slice 192 288 d) = Some colors /\
    unpack_items (Struct.unpack_I bo) (slice 288 432 d) = Some indices.
Proof.
  destruct bo; eexists; (split; [vm_compute; reflexivity |]);
    repeat split; vm_compute; reflexivity.
Qed.

(** The positions and colors come back exactly; the normals come back as
    the nearest single-precision values, which differ from the doubles of
    the script. *)
Lemma single_precision_of_arrays :
  map float32_value positions = positions /\
  map float32_value colors = colors /\
  Forall2 (fun x y => x <> y) (map float32_value normals) normals.
Proof.
  split; [vm_compute; reflexivity |]. split; [vm_compute; reflexivity |].
  unfold normals; cbn [map].
  repeat (apply List.Forall2_cons; [vm_compute; discriminate |]).
  apply List.Forall2_nil.
Qed.

(** C5, as stated, fails on a big-endian host: the buffer is not the
    little-endian encoding of its elements; the first element, -1.0, is
    stored as BF 80 00 00 and its little-endian encoding is 00 00 80 BF. *)
Lemma C5_big_endian_host :
  exists d,
    data BigEndian = inr d /\
    d <> concat (map little_endian words) /\
    Struct.pack_f BigEndian (neg f_1_0) = inr [xbf; x80; x00; x00] /\
    little_endian (bits32 (to_single (neg f_1_0))) = [x00; x00; x80; xbf].
Proof.
  eexists. split; [vm_compute; reflexivity |].
  split; [vm_compute; discriminate |].
  split; vm_compute; reflexivity.
Qed.

(** C5, amended: the buffer is the concatenation of one 4-byte group per
    element, in the byte order of the host: the binary32 encoding of each
    position, normal and color, then each index as an unsigned 32-bit
    integer.  On a little-endian host the groups are little-endian. *)
Theorem C5_native_byte_order (bo : byteorder) :
  exists d,
    data bo = inr d /\
    d = concat (map (match bo with
                     | LittleEndian => little_endian
                     | BigEndian => big_endian
                     end) words) /\
    length words = 108%nat /\
    Forall (fun w => 0 <= w < 2 ^ 32) words /\
    (forall w, length (little_endian w) = 4%nat /\ length (big_endian w) = 4%nat).
Proof.
  assert (Hwords : Forall (fun w => 0 <= w < 2 ^ 32) words).
  { apply List.Forall_forall. intros w Hw.
    assert (Hb : forallb (fun w => (0 <=? w) && (w <? 2 ^ 32)) words = true)
      by (vm_compute; reflexivity).
    rewrite forallb_forall in Hb. specialize (Hb w Hw). lia. }
  destruct bo; eexists; (split; [vm_compute; reflexivity |]);
    (split; [vm_compute; reflexivity |]);
    (split; [reflexivity |]); (split; [exact Hwords |]);
    intros w; split; reflexivity.
Qed.

(** ** Runs of the script *)

Lemma parent_scene_bin : parent scene_bin = "models".
Proof. reflexivity. Qed.

(** A failed [open] is a file-system error and leaves the world alone. *)
Lemma open_wb_error (path : string) (w w1 : world) (e : exn) :
  open_wb path w = (inl e, w1) -> is_OSError e = true /\ w1 = w.
Proof.
  unfold open_wb. intros H.
  repeat match type of H with
         | context [match ?x with _ => _ end] => destruct x
         end;
    inversion H; subst; split; reflexivity.
Qed.

(** A granted [open] leaves an empty writable file and hands the bytes of
    the old content back to the device. *)
Lemma open_wb_granted (w : world) :
  can_open w = true ->
  open_wb scene_bin w =
    (inr scene_bin,
     World (<[scene_bin := File true []]> (fs w)) (disk_free w + old_size w)
       (stdout w) (stdout_room w)).
Proof.
  unfold can_open, old_size, open_wb. rewrite parent_scene_bin.
  destruct (fs w !! "models") as [[dw | fw0 c0] |];
    [| intros H; discriminate H | intros H; discriminate H].
  destruct (fs w !! scene_bin) as [[dw1 | fw c] |]; intros H.
  - discriminate H.
  - subst fw. reflexivity.
  - subst dw. unfold set_file. rewrite Nat.add_0_r. reflexivity.
Qed.

Lemma open_wb_refused (w : world) :
  can_open w = false ->
  exists e, open_wb scene_bin w = (inl e, w) /\ is_OSError e = true.
Proof.
  unfold can_open, open_wb. rewrite parent_scene_bin.
  destruct (fs w !! "models") as [[dw | fw0 c0] |].
  - destruct (fs w !! scene_bin) as [[dw1 | fw c] |]; intros H.
    + exists IsADirectoryError. split; reflexivity.
    + subst fw. exists PermissionError. split; reflexivity.
    + subst dw. exists PermissionError. split; reflexivity.
  - intros _. exists NotADirectoryError. split; reflexivity.
  - intros _. exists FileNotFoundError. split; reflexivity.
Qed.

(** The two prints: both lines, the first line only, or none, depending on
    what the standard output still takes. *)
Lemma print_report_run (w : world) :
  print_report w =
    match stdout_room w with
    | O => (inl StdoutError, w)
    | S O =>
        (inl StdoutError,
         World (fs w) (disk_free w) (stdout w ++ [generated_line]) 0)
    | S (S room) =>
        (inr tt, World (fs w) (disk_free w) (stdout w ++ report) room)
    end.
Proof.
  unfold print_report, bind, print.
  destruct (stdout_room w) as [| [| room]]; cbn [fs disk_free stdout stdout_room].
  - reflexivity.
  - reflexivity.
  - rewrite <- app_assoc. reflexivity.
Qed.

(** The script after its packing loops: open, write, report. *)
Lemma main_steps (bo : byteorder) (w : world) :
  exists d,
    data bo = inr d /\ length d = 432%nat /\
    main bo w =
      match open_wb scene_bin w with
      | (inl e, w1) => (inl e, w1)
      | (inr f, w1) =>
          match write f d w1 with
          | (inl e, w2) => (inl e, w2)
          | (inr _, w2) => print_report w2
          end
      end.
Proof.
  destruct (data_packed bo) as (d & Hd & Hlen).
  exists d. split; [exact Hd |]. split; [exact Hlen |].
  unfold main, bind. rewrite Hd. cbn [lift ret].
  destruct (open_wb scene_bin w) as [[e | f] w1]; [reflexivity |].
  destruct (write f d w1) as [[e | n] w2]; [reflexivity |].
  rewrite Hlen, pretty_432. reflexivity.
Qed.

(** The ways a run can go: [open] is refused; the device fills up during
    the write; or the file is written in full and the report follows. *)
Lemma main_cases (bo : byteorder) (w : world) :
  exists d,
    data bo = inr d /\ length d = 432%nat /\
    ((can_open w = false /\
      exists e, main bo w = (inl e, w) /\ is_OSError e = true) \/
     (can_open w = true /\ (disk_free w + old_size w < 432)%nat /\
      main bo w =
        (inl NoSpaceError,
         World (<[scene_bin := File true (take (disk_free w + old_size w) d)]> (fs w))
           0 (stdout w) (stdout_room w))) \/
     (can_open w = true /\ (432 <= disk_free w + old_size w)%nat /\
      main bo w =
        print_report
          (World (<[scene_bin := File true d]> (fs w))
             (disk_free w + old_size w - 432) (stdout w) (stdout_room w)))).
Proof.
  destruct (main_steps bo w) as (d & Hd & Hlen & Hmain).
  exists d. split; [exact Hd |]. split; [exact Hlen |].
  destruct (can_open w) eqn:Hopen.
  - right. rewrite Hmain, (open_wb_granted w Hopen).
    unfold write. cbn [fs disk_free stdout stdout_room].
    rewrite Hlen, !alter_insert_eq. cbn [append app].
    destruct (432 <=? disk_free w + old_size w)%nat eqn:Hfree.
    + right. apply Nat.leb_le in Hfree.
      split; [reflexivity |]. split; [exact Hfree | reflexivity].
    + left. apply Nat.leb_gt in Hfree.
      split; [reflexivity |]. split; [exact Hfree | reflexivity].
  - left. split; [reflexivity |].
    destruct (open_wb_refused w Hopen) as (e & He & Hos).
    exists e. split; [| exact Hos]. rewrite Hmain, He. reflexivity.
Qed.

(** What a run that ends without an exception leaves behind. *)
Lemma main_success (bo : byteorder) (w w' : world) :
  main bo w = (inr tt, w') ->
  exists d,
    data bo = inr d /\ length d = 432%nat /\
    fs w' = <[scene_bin := File true d]> (fs w) /\
    stdout w' = stdout w ++ report.
Proof.
  intros Hrun.
  destruct (main_cases bo w)
    as (d & Hd & Hlen & [(_ & e & Hmain & _) | [(_ & _ & Hmain) | (_ & _ & Hmain)]]);
    rewrite Hmain in Hrun; [discriminate Hrun | discriminate Hrun |].
  exists d. split; [exact Hd |]. split; [exact Hlen |].
  rewrite print_report_run in Hrun. cbn [stdout_room] in Hrun.
  destruct (stdout_room w) as [| [| room]];
    [discriminate Hrun | discriminate Hrun |].
  injection Hrun as <-. split; reflexivity.
Qed.


(** In a directory whose [models/] accepts the file, on a device with room
    for it, the file is written whatever happens to the report. *)
Lemma main_file (bo : byteorder) (w : world) (dir_writable : bool) :
  fs w !! "models" = Some (Dir dir_writable) ->
  (fs w !! scene_bin = None /\ dir_writable = true \/
   exists old, fs w !! scene_bin = Some (File true old)) ->
  (432 <= disk_free w)%nat ->
  exists d,
    data bo = inr d /\ length d = 432%nat /\
    main bo w =
      print_report
        (World (<[scene_bin := File true d]> (fs w))
           (disk_free w + old_size w - 432) (stdout w) (stdout_room w)).
Proof.
  intros Hdir Hfile Hfree.
  assert (Hopen : can_open w = true).
  { unfold can_open. rewrite Hdir.
    destruct Hfile as [[-> ->] | [old ->]]; reflexivity. }
  destruct (main_cases bo w)
    as (d & Hd & Hlen & [(Hno & _) | [(_ & Hfull & _) | (_ & _ & Hmain)]]).
  - rewrite Hopen in Hno. discriminate Hno.
  - lia.
  - exists d. split; [exact Hd |]. split; [exact Hlen | exact Hmain].
Qed.

(** The same run when the standard output takes the two lines. *)
Lemma main_writes (bo : byteorder) (w : world) (dir_writable : bool) :
  fs w !! "models" = Some (Dir dir_writable) ->
  (fs w !! scene_bin = None /\ dir_writable = true \/
   exists old, fs w !! scene_bin = Some (File true old)) ->
  (432 <= disk_free w)%nat ->
  (2 <= stdout_room w)%nat ->
  exists d,
    data bo = inr d /\ length d = 432%nat /\
    main bo w =
      (inr tt, World (<[scene_bin := File true d]> (fs w))
                 (disk_free w + old_size w - 432) (stdout w ++ report)
                 (stdout_room w - 2)).
Proof.
  intros Hdir Hfile Hfree Hroom.
  destruct (main_file bo w dir_writable Hdir Hfile Hfree) as (d & Hd & Hlen & Hmain).
  exists d. split; [exact Hd |]. split; [exact Hlen |].
  rewrite Hmain, print_report_run. cbn [fs disk_free stdout stdout_room].
  destruct (stdout_room w) as [| [| room]]; [lia | lia |].
  replace (S (S room) - 2)%nat with room by lia. reflexivity.
Qed.

Lemma data_first_float (bo : byteorder) (d : list byte) :
  data bo = inr d -> Struct.unpack_f bo (slice 0 4 d) = Some (neg f_1_0).
Proof.
  destruct bo; intros Hd; vm_compute in Hd; injection Hd as <-;
    vm_compute; reflexivity.
Qed.

(** C1: the packed buffer is 432 bytes long on either host, and a run that
    completes stores exactly these 432 bytes in [models/scene.bin] and
    reports 432 on the standard output. *)
Theorem C1_buffer_is_432_bytes (bo : byteorder) :
  exists d,
    data bo = inr d /\ length d = 432%nat /\
    forall w w',
      main bo w = (inr tt, w') ->
      fs w' !! scene_bin = Some (File true d) /\
      stdout w' = stdout w ++ report.
Proof.
  destruct (data_packed bo) as (d & Hd & Hlen).
  exists d. split; [exact Hd |]. split; [exact Hlen |].
  intros w w' Hrun.
  destruct (main_success bo w w' Hrun) as (d' & Hd' & _ & Hfs & Hout).
  rewrite Hd in Hd'. injection Hd' as <-.
  rewrite Hfs, lookup_insert_eq. split; [reflexivity | exact Hout].
Qed.

Lemma temp_dir_run :
  exists d,
    data LittleEndian = inr d /\ length d = 432%nat /\
    main LittleEndian temp_dir =
      (inr tt, World (<[scene_bin := File true d]> (fs temp_dir))
                 (disk_free temp_dir + old_size temp_dir - 432)
                 (stdout temp_dir ++ report) (stdout_room temp_dir - 2)).
Proof.
  apply (main_writes LittleEndian temp_dir true).
  - vm_compute; reflexivity.
  - left. split; vm_compute; reflexivity.
  - vm_compute; lia.
  - vm_compute; lia.
Defined.

Lemma read_only_models_run :
  exists d,
    data LittleEndian = inr d /\ length d = 432%nat /\
    main LittleEndian read_only_models =
      (inr tt, World (<[scene_bin := File true d]> (fs read_only_models))
                 (disk_free read_only_models + old_size read_only_models - 432)
                 (stdout read_only_models ++ report)
                 (stdout_room read_only_models - 2)).
Proof.
  apply (main_writes LittleEndian read_only_models false).
  - vm_compute; reflexivity.
  - right. exists [x01; x02]. vm_compute; reflexivity.
  - vm_compute; lia.
  - vm_compute; lia.
Defined.

Lemma C1_witness :
  exists d w',
    main LittleEndian temp_dir = (inr tt, w') /\
    fs w' !! scene_bin = Some (File true d) /\
    length d = 432%nat /\
    stdout w' = report.
Proof.
  destruct (C1_buffer_is_432_bytes LittleEndian) as (d & Hd & Hlen & Hrun).
  destruct temp_dir_run as (d' & _ & _ & Hmain).
  exists d. eexists. split; [exact Hmain |].
  destruct (Hrun _ _ Hmain) as (Hfile & Hout).
  split; [exact Hfile |]. split; [exact Hlen |]. exact Hout.
Defined.

(** C6: two runs on the same host that complete leave the same bytes in
    [models/scene.bin], whatever the file system, the free space and the
    standard output were before each run; the bytes are the packed buffer,
    which depends on nothing but the byte order of the host. *)
Theorem C6_deterministic_output (bo : byteorder) (w1 w2 w1' w2' : world) :
  main bo w1 = (inr tt, w1') ->
  main bo w2 = (inr tt, w2') ->
  fs w1' !! scene_bin = fs w2' !! scene_bin /\
  exists d, data bo = inr d /\ fs w1' !! scene_bin = Some (File true d).
Proof.
  intros H1 H2.
  destruct (main_success bo w1 w1' H1) as (d1 & Hd1 & _ & Hfs1 & _).
  destruct (main_success bo w2 w2' H2) as (d2 & Hd2 & _ & Hfs2 & _).
  rewrite Hd1 in Hd2. injection Hd2 as <-.
  rewrite Hfs1, Hfs2, !lookup_insert_eq.
  split; [reflexivity |]. exists d1. split; [exact Hd1 | reflexivity].
Qed.

Lemma C6_witness :
  exists w1' w2',
    main LittleEndian temp_dir = (inr tt, w1') /\
    main LittleEndian read_only_models = (inr tt, w2') /\
    fs w1' !! scene_bin = fs w2' !! scene_bin.
Proof.
  destruct temp_dir_run as (d1 & _ & _ & H1).
  destruct read_only_models_run as (d2 & _ & _ & H2).
  eexists; eexists. split; [exact H1 |]. split; [exact H2 |].
  exact (proj1 (C6_deterministic_output LittleEndian _ _ _ _ H1 H2)).
Defined.

(** C8: run in a fresh directory that holds an empty [models/] folder, on
    a device with room for the file, the script leaves [models/scene.bin]
    with exactly 432 bytes, the first four of which unpack to -1.0; this
    holds whatever becomes of the two prints, and the run completes when
    the standard output takes them. *)
Theorem C8_scene_bin_produced (bo : byteorder) (w : world) :
  fs w !! "models" = Some (Dir true) ->
  fs w !! scene_bin = None ->
  (432 <= disk_free w)%nat ->
  exists w' d,
    snd (main bo w) = w' /\
    fs w' !! scene_bin = Some (File true d) /\
    length d = 432%nat /\
    Struct.unpack_f bo (slice 0 4 d) = Some (neg f_1_0) /\
    ((2 <= stdout_room w)%nat -> main bo w = (inr tt, w')).
Proof.
  intros Hdir Hnew Hfree.
  destruct (main_file bo w true Hdir (or_introl (conj Hnew eq_refl)) Hfree)
    as (d & Hd & Hlen & Hmain).
  eexists. exists d. split; [reflexivity |].
  rewrite Hmain, print_report_run. cbn [fs disk_free stdout stdout_room].
  destruct (stdout_room w) as [| [| room]]; cbn [snd fs];
    rewrite lookup_insert_eq;
    (split; [reflexivity |]); (split; [exact Hlen |]);
    (split; [exact (data_first_float bo d Hd) |]); intros Hroom;
    [lia | lia | reflexivity].
Qed.

Lemma C8_witness :
  exists w' d,
    snd (main BigEndian temp_dir) = w' /\
    fs w' !! scene_bin = Some (File true d) /\
    length d = 432%nat /\
    Struct.unpack_f BigEndian (slice 0 4 d) = Some (neg f_1_0) /\
    ((2 <= stdout_room temp_dir)%nat -> main BigEndian temp_dir = (inr tt, w')).
Proof.
  apply (C8_scene_bin_produced BigEndian temp_dir).
  - vm_compute; reflexivity.
  - vm_compute; reflexivity.
  - vm_compute; lia.
Defined.


(** A failure with [models/] present and writable: the standard output
    takes one line only, so the second print raises after the file is
    written and the first line is out. *)
Lemma one_line_left_run :
  exists d w',
    data LittleEndian = inr d /\
    main LittleEndian one_line_left = (inl StdoutError, w') /\
    fs w' !! scene_bin = Some (File true d) /\
    stdout w' = [generated_line].
Proof.
  destruct (main_file LittleEndian one_line_left true) as (d & Hd & _ & Hmain).
  - vm_compute; reflexivity.
  - left. split; vm_compute; reflexivity.
  - vm_compute; lia.
  - exists d. eexists. split; [exact Hd |].
    rewrite Hmain, print_report_run. cbn [fs disk_free stdout stdout_room].
    split; [reflexivity |]. cbn [fs stdout].
    rewrite lookup_insert_eq. split; reflexivity.
Defined.

(** With the standard output closed the first print raises: the file is
    written in full and nothing is printed. *)
Lemma closed_stdout_run :
  exists d w',
    data LittleEndian = inr d /\
    main LittleEndian closed_stdout = (inl StdoutError, w') /\
    fs w' !! scene_bin = Some (File true d) /\
    stdout w' = [].
Proof.
  destruct (main_file LittleEndian closed_stdout true) as (d & Hd & _ & Hmain).
  - vm_compute; reflexivity.
  - left. split; vm_compute; reflexivity.
  - vm_compute; lia.
  - exists d. eexists. split; [exact Hd |].
    rewrite Hmain, print_report_run. cbn [fs disk_free stdout stdout_room].
    split; [reflexivity |]. cbn [fs stdout].
    rewrite lookup_insert_eq. split; reflexivity.
Defined.



(** * Encodings and runs in general *)

Lemma digits2_pos_size (m : positive) : digits2_pos m = Pos.size m.
Proof. induction m as [m IH | m IH |]; simpl; congruence. Qed.

(** The number of binary digits of [m] brackets it between powers of two. *)
Lemma digits2_bounds (m : positive) :
  2 ^ (Zpos (digits2_pos m) - 1) <= Zpos m < 2 ^ Zpos (digits2_pos m).
Proof.
  rewrite digits2_pos_size.
  pose proof (Pos.size_gt m) as Hgt. pose proof (Pos.size_le m) as Hle.
  apply Pos2Z.pos_lt_pos in Hgt. apply Pos2Z.pos_le_pos in Hle.
  rewrite Pos2Z.inj_pow in Hgt, Hle.
  replace (Zpos (Pos.size m)) with (Z.succ (Zpos (Pos.size m) - 1)) in Hle at 1 by lia.
  rewrite Z.pow_succ_r in Hle by lia.
  change (Zpos m~0) with (2 * Zpos m) in Hle. lia.
Qed.

(** What it means for a finite value to be a canonical binary32 number:
    a subnormal with exponent -149, or a normal with a 24-bit mantissa. *)
Lemma valid_binary32_finite (s : bool) (m : positive) (e : Z) :
  valid_binary prec32 emax32 (S754_finite s m e) = true ->
  (Zpos m < 2 ^ 23 /\ e = -149) \/
  (2 ^ 23 <= Zpos m < 2 ^ 24 /\ -149 <= e <= 104).
Proof.
  unfold valid_binary, bounded, canonical_mantissa, fexp, emin, prec32, emax32.
  intros H. apply andb_true_iff in H. destruct H as [Hc He].
  apply Z.eqb_eq in Hc. apply Z.leb_le in He.
  pose proof (digits2_bounds m) as [Hlo Hhi].
  set (d := Zpos (digits2_pos m)) in *.
  assert (Hd : 0 < d) by (unfold d; lia).
  change (3 - 128 - 24) with (-149) in Hc. change (128 - 24) with 104 in He.
  destruct (Z.lt_ge_cases (Zpos m) (2 ^ 23)) as [Hsub | Hnorm].
  - left. split; [exact Hsub |].
    assert (d <= 23).
    { destruct (Z.le_gt_cases d 23) as [|Hgt]; [assumption |].
      assert (2 ^ 23 <= 2 ^ (d - 1)) by (apply Z.pow_le_mono_r; lia). lia. }
    lia.
  - right.
    assert (24 <= d).
    { destruct (Z.le_gt_cases 24 d) as [|Hlt]; [assumption |].
      assert (2 ^ d <= 2 ^ 23) by (apply Z.pow_le_mono_r; lia). lia. }
    assert (d = 24) by lia.
    split; [| lia]. split; [exact Hnorm |].
    replace 24 with d by assumption. exact Hhi.
Qed.

Lemma testbit_above (a k n : Z) :
  0 <= a < 2 ^ k -> 0 <= k <= n -> Z.testbit a n = false.
Proof.
  intros Ha Hk. rewrite <- (Z.mod_small a (2 ^ k)) by exact Ha.
  apply Z.mod_pow2_bits_high. exact Hk.
Qed.

Lemma below_pow2 (a k : Z) :
  0 <= k -> 0 <= a -> (forall n, k <= n -> Z.testbit a n = false) -> a < 2 ^ k.
Proof.
  intros Hk Ha Hbits.
  assert (Hmod : a mod 2 ^ k = a).
  { apply Z.bits_inj'. intros n Hn.
    destruct (Z.lt_ge_cases n k) as [Hlt | Hge].
    - apply Z.mod_pow2_bits_low. lia.
    - rewrite Z.mod_pow2_bits_high by lia. symmetry. apply Hbits. exact Hge. }
  rewrite <- Hmod. apply Z.mod_pos_bound. apply Z.pow_pos_nonneg; lia.
Qed.


Lemma sign_field_bit (s : bool) (n : Z) :
  0 <= n -> Z.testbit (sign_field s) n = s && (n =? 31).
Proof.
  intros Hn. destruct s; unfold sign_field.
  - change (Z.shiftl 1 31) with (2 ^ 31). rewrite Z.pow2_bits_eqb by lia.
    rewrite Z.eqb_sym. reflexivity.
  - apply Z.testbit_0_l.
Qed.

(** A word assembled from a sign, an 8-bit exponent field and a 23-bit
    fraction field gives the three fields back. *)
Section Fields.

Variables (s : bool) (E F : Z).
Hypothesis E_range : 0 <= E < 2 ^ 8.
Hypothesis F_range : 0 <= F < 2 ^ 23.


Lemma word_bit (n : Z) :
  0 <= n ->
  Z.testbit (word32 s E F) n = (s && (n =? 31)) || Z.testbit E (n - 23) || Z.testbit F n.
Proof.
  intros Hn. unfold word32.
  rewrite !Z.lor_spec, sign_field_bit, Z.shiftl_spec by lia.
  rewrite orb_assoc. reflexivity.
Qed.

Lemma word_sign : Z.testbit (word32 s E F) 31 = s.
Proof.
  rewrite word_bit by lia.
  rewrite (testbit_above E 8 (31 - 23)), (testbit_above F 23 31) by lia.
  rewrite !orb_false_r. apply andb_true_r.
Qed.

Lemma word_exponent : Z.land (Z.shiftr (word32 s E F) 23) 255 = E.
Proof.
  apply Z.bits_inj'. intros n Hn.
  rewrite Z.land_spec, Z.shiftr_spec, testbit_255, word_bit by lia.
  replace (n + 23 - 23) with n by lia.
  rewrite (testbit_above F 23 (n + 23)) by lia. rewrite orb_false_r.
  destruct (Z.lt_ge_cases n 8) as [Hlt | Hge].
  - replace (n + 23 =? 31) with false by lia.
    replace ((0 <=? n) && (n <? 8)) with true by lia.
    rewrite andb_false_r, andb_true_r. reflexivity.
  - replace ((0 <=? n) && (n <? 8)) with false by lia.
    rewrite (testbit_above E 8 n) by lia. apply andb_false_r.
Qed.

Lemma word_fraction : Z.land (word32 s E F) (Z.ones 23) = F.
Proof.
  apply Z.bits_inj'. intros n Hn.
  rewrite Z.land_spec, Z.testbit_ones, word_bit by lia.
  destruct (Z.lt_ge_cases n 23) as [Hlt | Hge].
  - replace (n =? 31) with false by lia.
    rewrite (Z.testbit_neg_r E (n - 23)) by lia.
    replace ((0 <=? n) && (n <? 23)) with true by lia.
    rewrite andb_false_r, andb_true_r. reflexivity.
  - replace ((0 <=? n) && (n <? 23)) with false by lia.
    rewrite (testbit_above F 23 n) by lia. apply andb_false_r.
Qed.

Lemma word_range : 0 <= word32 s E F < 2 ^ 32.
Proof.
  assert (Hnn : 0 <= word32 s E F).
  { unfold word32. rewrite !Z.lor_nonneg. repeat split; try lia.
    - destruct s; unfold sign_field; [change (Z.shiftl 1 31) with (2 ^ 31) |]; lia.
    - apply Z.shiftl_nonneg. lia. }
  split; [exact Hnn |].
  apply below_pow2; [lia | exact Hnn |].
  intros n Hn. rewrite word_bit by lia.
  replace (n =? 31) with false by lia.
  rewrite (testbit_above E 8 (n - 23)), (testbit_above F 23 n) by lia.
  rewrite andb_false_r. reflexivity.
Qed.

End Fields.

Lemma bits32_subnormal (s : bool) (m : positive) (e : Z) :
  Zpos m < 2 ^ 23 -> bits32 (S754_finite s m e) = word32 s 0 (Zpos m).
Proof.
  intros Hm. unfold bits32, word32, sign_field.
  change (Z.shiftl 1 23) with (2 ^ 23).
  replace (Zpos m <? 2 ^ 23) with true by lia.
  rewrite Z.shiftl_0_l, Z.lor_0_l. reflexivity.
Qed.

Lemma bits32_normal (s : bool) (m : positive) (e : Z) :
  2 ^ 23 <= Zpos m ->
  bits32 (S754_finite s m e) = word32 s (e + 150) (Z.land (Zpos m) (Z.ones 23)).
Proof.
  intros Hm. unfold bits32, word32, sign_field.
  change (Z.shiftl 1 23) with (2 ^ 23).
  replace (Zpos m <? 2 ^ 23) with false by lia. reflexivity.
Qed.

Lemma fraction_range (m : Z) : 0 <= Z.land m (Z.ones 23) < 2 ^ 23.
Proof. rewrite Z.land_ones by lia. apply Z.mod_pos_bound. lia. Qed.

(** Putting the hidden bit back on the fraction of a normal mantissa. *)
Lemma hidden_bit (m : Z) :
  2 ^ 23 <= m < 2 ^ 24 -> Z.lor (Z.land m (Z.ones 23)) (2 ^ 23) = m.
Proof.
  intros Hm. apply Z.bits_inj'. intros n Hn.
  rewrite Z.lor_spec, Z.land_spec, Z.testbit_ones, Z.pow2_bits_eqb by lia.
  destruct (Z.lt_trichotomy n 23) as [Hlt | [-> | Hgt]].
  - replace ((0 <=? n) && (n <? 23)) with true by lia.
    replace (23 =? n) with false by lia.
    rewrite andb_true_r, orb_false_r. reflexivity.
  - rewrite andb_false_r. cbn [orb Z.eqb Pos.eqb]. symmetry.
    apply Z.testbit_true; [lia |].
    rewrite <- (Z.div_unique m (2 ^ 23) 1 (m - 2 ^ 23)) by lia. reflexivity.
  - replace ((0 <=? n) && (n <? 23)) with false by lia.
    replace (23 =? n) with false by lia.
    rewrite (testbit_above m 24 n) by lia. rewrite andb_false_r. reflexivity.
Qed.

(** The binary32 encoding loses nothing: decoding the word of a canonical
    single-precision value gives the value back. *)
Lemma of_bits32_bits32 (y : spec_float) :
  valid_binary prec32 emax32 y = true -> of_bits32 (bits32 y) = y.
Proof.
  destruct y as [s | s | | s m e]; intros Hv.
  - destruct s; vm_compute; reflexivity.
  - destruct s; vm_compute; reflexivity.
  - vm_compute; reflexivity.
  - destruct (valid_binary32_finite s m e Hv) as [[Hm ->] | [Hm He]].
    + rewrite bits32_subnormal by exact Hm.
      unfold of_bits32; cbv zeta.
      rewrite word_sign, word_exponent, word_fraction by lia.
      cbn [Z.eqb Z.to_pos]. reflexivity.
    + rewrite bits32_normal by lia.
      pose proof (fraction_range (Zpos m)) as HF.
      unfold of_bits32; cbv zeta.
      rewrite word_sign, word_exponent, word_fraction by lia.
      replace (e + 150 =? 0) with false by lia.
      replace (e + 150 =? 255) with false by lia.
      change (Z.shiftl 1 23) with (2 ^ 23). rewrite hidden_bit by exact Hm.
      replace (e + 150 - 150) with e by lia. reflexivity.
Qed.

Lemma bits32_range (y : spec_float) :
  valid_binary prec32 emax32 y = true -> 0 <= bits32 y < 2 ^ 32.
Proof.
  destruct y as [s | s | | s m e]; intros Hv.
  - destruct s; vm_compute; split; (discriminate || reflexivity).
  - destruct s; vm_compute; split; (discriminate || reflexivity).
  - vm_compute; split; (discriminate || reflexivity).
  - destruct (valid_binary32_finite s m e Hv) as [[Hm ->] | [Hm He]].
    + rewrite bits32_subnormal by exact Hm. apply word_range; lia.
    + rewrite bits32_normal by lia. apply word_range; [lia |].
      apply fraction_range.
Qed.

(** Unpacking undoes packing up to the rounding to single precision. *)
Theorem unpack_f_pack_f (bo : byteorder) (x : spec_float) (bs : list byte) :
  valid_binary prec32 emax32 (to_single x) = true ->
  Struct.pack_f bo x = inr bs ->
  Struct.unpack_f bo bs = Some (float32_value x).
Proof.
  intros Hv. unfold Struct.pack_f, Struct.unpack_f, float32_value.
  intros H. injection H as <-.
  rewrite native_word_native_bytes by (apply bits32_range; exact Hv).
  rewrite of_bits32_bits32 by exact Hv. reflexivity.
Qed.

(** ** The packing loop on arbitrary arrays *)

Section Loop.

Context {A : Type} (pack : A -> exn + list byte).

(** Two loops in a row are one loop over the concatenated arrays. *)
Lemma pack_loop_app (xs ys : list A) :
  forall acc,
    pack_loop pack (xs ++ ys) acc
    = and_then (pack_loop pack xs acc) (pack_loop pack ys).
Proof.
  induction xs as [| x rest IH]; intros acc; simpl; [reflexivity |].
  destruct (pack x) as [e | bs]; [reflexivity | apply IH].
Qed.

(** A loop that completes has appended the packed elements, in order. *)
Lemma pack_loop_chunks (xs : list A) :
  forall acc d,
    pack_loop pack xs acc = inr d ->
    exists chunks,
      Forall2 (fun x bs => pack x = inr bs) xs chunks /\
      d = acc ++ concat chunks.
Proof.
  induction xs as [| x rest IH]; intros acc d Hloop; simpl in Hloop.
  - injection Hloop as <-. exists []. split; [constructor |].
    simpl. symmetry. apply app_nil_r.
  - destruct (pack x) as [e | bs] eqn:Hx; [discriminate |].
    destruct (IH _ _ Hloop) as (chunks & Hall & ->).
    exists (bs :: chunks). split; [constructor; assumption |].
    simpl. symmetry. apply app_assoc.
Qed.

(** A loop stops at the first element that cannot be packed: the elements
    after it play no role. *)
Lemma pack_loop_raises (xs : list A) (x : A) (ys : list A) (e : exn) :
  forall acc d,
    pack_loop pack xs acc = inr d ->
    pack x = inl e ->
    pack_loop pack (xs ++ x :: ys) acc = inl e.
Proof.
  intros acc d Hxs Hx. rewrite pack_loop_app, Hxs. simpl. rewrite Hx. reflexivity.
Qed.

(** A loop raises only when one of its elements does. *)
Lemma pack_loop_total (xs : list A) :
  Forall (fun x => exists bs, pack x = inr bs) xs ->
  forall acc, exists d, pack_loop pack xs acc = inr d.
Proof.
  induction 1 as [| x rest [bs Hx] _ IH]; intros acc; simpl.
  - exists acc. reflexivity.
  - rewrite Hx. apply IH.
Qed.

Context {B : Type} (unpack : list byte -> option B) (value : A -> B) (ok : A -> Prop).
Hypothesis unpack_pack :
  forall x bs, ok x -> pack x = inr bs -> length bs = 4%nat /\ unpack bs = Some (value x).

Lemma unpack_items_chunks (xs : list A) (chunks : list (list byte)) :
  Forall ok xs ->
  Forall2 (fun x bs => pack x = inr bs) xs chunks ->
  unpack_items unpack (concat chunks) = Some (map value xs).
Proof.
  intros Hok Hall. induction Hall as [| x bs xs chunks Hx _ IH].
  - reflexivity.
  - apply Forall_cons in Hok. destruct Hok as [Hokx Hok].
    destruct (unpack_pack x bs Hokx Hx) as [Hlen Hun].
    destruct bs as [| b0 [| b1 [| b2 [| b3 [| ? ?]]]]]; try discriminate.
    cbn [concat app unpack_items]. rewrite Hun, (IH Hok). reflexivity.
Qed.

(** The bytes a loop appends, read back from the offset where the loop
    started, are the values of the array; the bytes before are untouched. *)
Lemma pack_loop_read_back (xs : list A) (acc d : list byte) :
  Forall ok xs ->
  pack_loop pack xs acc = inr d ->
  take (length acc) d = acc /\
  unpack_items unpack (drop (length acc) d) = Some (map value xs).
Proof.
  intros Hok Hloop.
  destruct (pack_loop_chunks xs acc d Hloop) as (chunks & Hall & ->).
  rewrite take_app_length, drop_app_length.
  split; [reflexivity |]. apply unpack_items_chunks; assumption.
Qed.

End Loop.

(** ** Byte order *)


Lemma swap32_app (k : nat) :
  forall a b, length a = (4 * k)%nat -> swap32 (a ++ b) = swap32 a ++ swap32 b.
Proof.
  induction k as [| k IH]; intros a b Hlen.
  - destruct a; [reflexivity | discriminate].
  - destruct a as [| b0 [| b1 [| b2 [| b3 rest]]]]; try (simpl in Hlen; lia).
    cbn [app swap32]. rewrite (IH rest b) by (simpl in Hlen; lia). reflexivity.
Qed.

Lemma swap32_length (k : nat) :
  forall a, length a = (4 * k)%nat -> length (swap32 a) = (4 * k)%nat.
Proof.
  induction k as [| k IH]; intros a Hlen.
  - destruct a; [reflexivity | discriminate].
  - destruct a as [| b0 [| b1 [| b2 [| b3 rest]]]]; try (simpl in Hlen; lia).
    cbn [swap32 length]. rewrite (IH rest) by (simpl in Hlen; lia). lia.
Qed.

Lemma swap32_group (b0 b1 b2 b3 : byte) :
  swap32 [b0; b1; b2; b3] = rev [b0; b1; b2; b3].
Proof. reflexivity. Qed.

(** A pack function whose big-endian output is the little-endian one
    reversed, four bytes at a time. *)
Section Swap.

Context {A : Type} (pack : byteorder -> A -> exn + list byte).
Hypothesis pack_swaps :
  forall x bs, pack LittleEndian x = inr bs ->
               length bs = 4%nat /\ pack BigEndian x = inr (swap32 bs).

Lemma pack_loop_swap (xs : list A) :
  forall k acc d,
    length acc = (4 * k)%nat ->
    pack_loop (pack LittleEndian) xs acc = inr d ->
    pack_loop (pack BigEndian) xs (swap32 acc) = inr (swap32 d).
Proof.
  induction xs as [| x rest IH]; intros k acc d Hlen Hloop; simpl in *.
  - injection Hloop as <-. reflexivity.
  - destruct (pack LittleEndian x) as [e | bs] eqn:Hx; [discriminate |].
    destruct (pack_swaps x bs Hx) as [Hbs ->].
    rewrite <- (swap32_app k) by exact Hlen.
    apply (IH (S k)); [| exact Hloop].
    rewrite length_app, Hlen, Hbs. lia.
Qed.

End Swap.

Lemma pack_f_swaps (x : spec_float) (bs : list byte) :
  Struct.pack_f LittleEndian x = inr bs ->
  length bs = 4%nat /\ Struct.pack_f BigEndian x = inr (swap32 bs).
Proof.
  unfold Struct.pack_f.
  intros H. injection H as <-. split; reflexivity.
Qed.

Lemma pack_I_swaps (i : Z) (bs : list byte) :
  Struct.pack_I LittleEndian i = inr bs ->
  length bs = 4%nat /\ Struct.pack_I BigEndian i = inr (swap32 bs).
Proof.
  unfold Struct.pack_I.
  destruct ((0 <=? i) && (i <? 2 ^ 32)); [| discriminate].
  intros H. injection H as <-. split; reflexivity.
Qed.

(** * Further properties *)

Lemma pack_I_in_range (bo : byteorder) (i : Z) :
  (in_range i -> Struct.pack_I bo i = inr (Struct.native_bytes bo i)) /\
  (~ in_range i -> Struct.pack_I bo i = inl StructError).
Proof.
  unfold in_range, Struct.pack_I. split; intros H.
  - replace ((0 <=? i) && (i <? 2 ^ 32)) with true by lia. reflexivity.
  - replace ((0 <=? i) && (i <? 2 ^ 32)) with false by lia. reflexivity.
Qed.

(** X1: an integer that ['I'] accepts is packed into four bytes from which
    unpacking on the same host returns it, and no other integer packs to
    the same bytes. *)
Theorem X1_pack_I_round_trip (bo : byteorder) (i : Z) (bs : list byte) :
  Struct.pack_I bo i = inr bs ->
  length bs = 4%nat /\
  Struct.unpack_I bo bs = Some i /\
  (forall j, Struct.pack_I bo j = inr bs -> j = i).
Proof.
  intros Hi. split; [exact (pack_I_length bo i bs Hi) |].
  pose proof (unpack_I_pack_I bo i bs Hi) as Hun.
  split; [exact Hun |].
  intros j Hj. apply (unpack_I_pack_I bo j bs) in Hj. congruence.
Qed.

Lemma X1_witness :
  length [x07; x00; x00; x00] = 4%nat /\
  Struct.unpack_I LittleEndian [x07; x00; x00; x00] = Some 7 /\
  (forall j, Struct.pack_I LittleEndian j = inr [x07; x00; x00; x00] -> j = 7).
Proof. apply (X1_pack_I_round_trip LittleEndian 7). reflexivity. Defined.

(** X2: packing a double with ['f'] never raises; it gives four bytes from
    which unpacking on the same host returns the double rounded to single
    precision, an infinity when the double is beyond the range of single
    precision.  (The model has a single NaN, so NaN is left out.) *)
Theorem X2_pack_f_round_trip (bo : byteorder) (x : spec_float) :
  x <> S754_nan ->
  valid_binary prec32 emax32 (to_single x) = true ->
  exists bs,
    Struct.pack_f bo x = inr bs /\
    length bs = 4%nat /\
    Struct.unpack_f bo bs = Some (float32_value x).
Proof.
  intros _ Hv. eexists. split; [reflexivity |].
  split; [destruct bo; reflexivity |].
  exact (unpack_f_pack_f bo x _ Hv eq_refl).
Qed.

Lemma X2_witness :
  exists bs,
    Struct.pack_f LittleEndian (of_Z (10 ^ 39)) = inr bs /\
    length bs = 4%nat /\
    Struct.unpack_f LittleEndian bs = Some (float32_value (of_Z (10 ^ 39))).
Proof.
  apply (X2_pack_f_round_trip LittleEndian (of_Z (10 ^ 39))).
  - vm_compute. intros H; discriminate H.
  - vm_compute; reflexivity.
Defined.

(** The double 1e39 is beyond single precision: it is packed as
    00 00 80 7f, the infinity, on a little-endian host. *)
Lemma pack_f_beyond_range :
  Struct.pack_f LittleEndian (of_Z (10 ^ 39)) = inr [x00; x00; x80; x7f] /\
  float32_value (of_Z (10 ^ 39)) = S754_infinity false.
Proof. split; vm_compute; reflexivity. Qed.

(** X3: a completed index loop leaves the bytes it started from in place,
    appends four bytes per index, and the appended bytes unpack to the
    array, in order. *)
Theorem X3_index_loop_read_back (bo : byteorder) (xs : list Z) (acc d : list byte) :
  pack_loop (Struct.pack_I bo) xs acc = inr d ->
  take (length acc) d = acc /\
  length d = (length acc + 4 * length xs)%nat /\
  unpack_items (Struct.unpack_I bo) (drop (length acc) d) = Some xs.
Proof.
  intros Hloop.
  destruct (pack_loop_read_back (Struct.pack_I bo) (Struct.unpack_I bo)
              (fun i => i) (fun _ => True)) with (xs := xs) (acc := acc) (d := d)
    as [Hkeep Hread].
  - intros i bs _ Hi. split; [exact (pack_I_length bo i bs Hi) |].
    exact (unpack_I_pack_I bo i bs Hi).
  - apply List.Forall_forall. intros; exact I.
  - exact Hloop.
  - split; [exact Hkeep |].
    split; [exact (pack_loop_length _ (pack_I_length bo) xs acc d Hloop) |].
    rewrite Hread, map_id. reflexivity.
Qed.

Lemma X3_witness :
  exists d,
    pack_loop (Struct.pack_I BigEndian) [3; 2; 6] [xaa; xbb; xcc; xdd] = inr d /\
    take 4 d = [xaa; xbb; xcc; xdd] /\
    length d = 16%nat /\
    unpack_items (Struct.unpack_I BigEndian) (drop 4 d) = Some [3; 2; 6].
Proof.
  eexists. split; [vm_compute; reflexivity |].
  apply (X3_index_loop_read_back BigEndian [3; 2; 6] [xaa; xbb; xcc; xdd]).
  vm_compute; reflexivity.
Defined.

(** X4: a float loop always completes; it leaves the bytes it started from
    in place, appends four bytes per element, and the appended bytes
    unpack to the single-precision values of the array, in order.  (The
    model has a single NaN, so arrays holding a NaN are left out.) *)
Theorem X4_float_loop_read_back (bo : byteorder) (xs : list spec_float)
    (acc : list byte) :
  Forall (fun x => x <> S754_nan /\
                   valid_binary prec32 emax32 (to_single x) = true) xs ->
  exists d,
    pack_loop (Struct.pack_f bo) xs acc = inr d /\
    take (length acc) d = acc /\
    length d = (length acc + 4 * length xs)%nat /\
    unpack_items (Struct.unpack_f bo) (drop (length acc) d)
      = Some (map float32_value xs).
Proof.
  intros Hv.
  destruct (pack_loop_total (Struct.pack_f bo) xs) with (acc := acc) as [d Hloop].
  { apply List.Forall_forall. intros x _. eexists. reflexivity. }
  exists d. split; [exact Hloop |].
  destruct (pack_loop_read_back (Struct.pack_f bo) (Struct.unpack_f bo)
              float32_value
              (fun x => x <> S754_nan /\
                        valid_binary prec32 emax32 (to_single x) = true))
    with (xs := xs) (acc := acc) (d := d) as [Hkeep Hread].
  - intros x bs [_ Hx] Hp. split; [exact (pack_f_length bo x bs Hp) |].
    exact (unpack_f_pack_f bo x bs Hx Hp).
  - exact Hv.
  - exact Hloop.
  - split; [exact Hkeep |].
    split; [exact (pack_loop_length _ (pack_f_length bo) xs acc d Hloop) |].
    exact Hread.
Qed.

Lemma X4_witness :
  exists d,
    pack_loop (Struct.pack_f LittleEndian) [f_1_0; of_Z (10 ^ 39); f_0_5] [x00] = inr d /\
    take 1 d = [x00] /\
    length d = 13%nat /\
    unpack_items (Struct.unpack_f LittleEndian) (drop 1 d)
      = Some (map float32_value [f_1_0; of_Z (10 ^ 39); f_0_5]).
Proof.
  apply (X4_float_loop_read_back LittleEndian [f_1_0; of_Z (10 ^ 39); f_0_5] [x00]).
  repeat (apply List.Forall_cons;
          [split; [vm_compute; intros H; discriminate H | vm_compute; reflexivity] |]).
  apply List.Forall_nil.
Defined.

(** X5: running a loop over one array and then a loop over another, on the
    same buffer, is running one loop over the two arrays joined; an
    exception in the first part skips the second. *)
Theorem X5_loops_compose {A : Type} (pack : A -> exn + list byte)
    (xs ys : list A) (acc : list byte) :
  pack_loop pack (xs ++ ys) acc
  = and_then (pack_loop pack xs acc) (pack_loop pack ys).
Proof. apply pack_loop_app. Qed.

(** X6: the index loop completes exactly when every index lies in
    [0, 2^32), and the only exception it can raise is [struct.error]. *)
Theorem X6_index_loop_completes_iff (bo : byteorder) (xs : list Z) (acc : list byte) :
  ((exists d, pack_loop (Struct.pack_I bo) xs acc = inr d) <-> Forall in_range xs) /\
  (forall e, pack_loop (Struct.pack_I bo) xs acc = inl e -> e = StructError).
Proof.
  revert acc. induction xs as [| i rest IH]; intros acc.
  - split; [split |].
    + intros _. apply List.Forall_nil.
    + intros _. exists acc. reflexivity.
    + discriminate.
  - cbn [pack_loop].
    destruct (pack_I_in_range bo i) as [Hin Hout].
    destruct (Z_le_dec 0 i) as [H0 |]; [destruct (Z_lt_dec i (2 ^ 32)) as [H1 |] |].
    + rewrite (Hin (conj H0 H1)).
      destruct (IH (acc ++ Struct.native_bytes bo i)) as [[Hto Hfrom] Herr].
      split; [split |].
      * intros Hd. apply List.Forall_cons; [split; assumption | exact (Hto Hd)].
      * intros Hall. apply Hfrom. apply (List.Forall_inv_tail Hall).
      * exact Herr.
    + rewrite Hout by (unfold in_range; lia).
      split; [split |].
      * intros [d Hd]. discriminate.
      * intros Hall. apply List.Forall_inv in Hall. unfold in_range in Hall. lia.
      * intros e He. congruence.
    + rewrite Hout by (unfold in_range; lia).
      split; [split |].
      * intros [d Hd]. discriminate.
      * intros Hall. apply List.Forall_inv in Hall. unfold in_range in Hall. lia.
      * intros e He. congruence.
Qed.

Lemma X6_witness :
  exists d, pack_loop (Struct.pack_I LittleEndian) [0; 7; 2 ^ 32 - 1] [] = inr d.
Proof.
  apply (proj2 (proj1 (X6_index_loop_completes_iff LittleEndian [0; 7; 2 ^ 32 - 1] []))).
  repeat (apply List.Forall_cons; [unfold in_range; lia |]). apply List.Forall_nil.
Defined.

(** X7: the index loop raises [struct.error] at the first index out of
    range, whatever comes after it. *)
Theorem X7_loop_stops_at_first_error (bo : byteorder) (xs ys : list Z) (i : Z)
    (acc d : list byte) :
  pack_loop (Struct.pack_I bo) xs acc = inr d ->
  ~ in_range i ->
  pack_loop (Struct.pack_I bo) (xs ++ i :: ys) acc = inl StructError.
Proof.
  intros Hxs Hi.
  apply (pack_loop_raises _ xs i ys StructError acc d Hxs).
  apply (proj2 (pack_I_in_range bo i)). exact Hi.
Qed.

Lemma X7_witness :
  pack_loop (Struct.pack_I LittleEndian) ([0; 1] ++ (-1) :: [2; 2 ^ 40]) [] = inl StructError.
Proof.
  apply (X7_loop_stops_at_first_error LittleEndian [0; 1] [2; 2 ^ 40] (-1) []
           [x00; x00; x00; x00; x01; x00; x00; x00]).
  - vm_compute; reflexivity.
  - unfold in_range. lia.
Defined.

(** X8: on a big-endian host each loop produces the bytes of the
    little-endian host with every group of four reversed: the float loop,
    which always completes, and the index loop whenever it completes.
    (The model has a single NaN, so float arrays holding a NaN are left
    out.) *)
Theorem X8_big_endian_is_byte_swapped (k : nat) (acc : list byte) :
  length acc = (4 * k)%nat ->
  (forall xs : list spec_float,
     Forall (fun x => x <> S754_nan) xs ->
     exists d,
       pack_loop (Struct.pack_f LittleEndian) xs acc = inr d /\
       pack_loop (Struct.pack_f BigEndian) xs (swap32 acc) = inr (swap32 d)) /\
  (forall (xs : list Z) (d : list byte),
     pack_loop (Struct.pack_I LittleEndian) xs acc = inr d ->
     pack_loop (Struct.pack_I BigEndian) xs (swap32 acc) = inr (swap32 d)).
Proof.
  intros Hlen. split.
  - intros xs _.
    destruct (pack_loop_total (Struct.pack_f LittleEndian) xs) with (acc := acc)
      as [d Hloop].
    { apply List.Forall_forall. intros x _. eexists. reflexivity. }
    exists d. split; [exact Hloop |].
    exact (pack_loop_swap Struct.pack_f pack_f_swaps xs k acc d Hlen Hloop).
  - intros xs d Hloop.
    exact (pack_loop_swap Struct.pack_I pack_I_swaps xs k acc d Hlen Hloop).
Qed.

Lemma X8_witness :
  (exists d,
     pack_loop (Struct.pack_f LittleEndian) [neg f_1_0; of_Z (10 ^ 39)]
       [x01; x02; x03; x04] = inr d /\
     pack_loop (Struct.pack_f BigEndian) [neg f_1_0; of_Z (10 ^ 39)]
       (swap32 [x01; x02; x03; x04]) = inr (swap32 d)) /\
  pack_loop (Struct.pack_I BigEndian) [258] (swap32 [x01; x02; x03; x04])
  = inr (swap32 [x01; x02; x03; x04; x02; x01; x00; x00]).
Proof.
  destruct (X8_big_endian_is_byte_swapped 1 [x01; x02; x03; x04] eq_refl)
    as [Hf Hi].
  split.
  - apply Hf.
    repeat (apply List.Forall_cons; [vm_compute; intros H; discriminate H |]).
    apply List.Forall_nil.
  - apply Hi. vm_compute; reflexivity.
Defined.




(** X12: when [open] is refused (no [models/] directory, a directory in
    the place of [scene.bin], a read-only [scene.bin], or no [scene.bin]
    in a read-only [models/]), the run ends with that [OSError] and leaves
    the file system, the free space and the standard output exactly as
    they were. *)
Theorem X12_refused_open_changes_nothing (bo : byteorder) (w : world) :
  can_open w = false ->
  exists e, main bo w = (inl e, w) /\ is_OSError e = true.
Proof.
  intros Hno.
  destruct (main_cases bo w)
    as (d & _ & _ & [(_ & e & Hmain & Hos) | [(Hyes & _) | (Hyes & _)]]).
  - exists e. split; [exact Hmain | exact Hos].
  - rewrite Hno in Hyes. discriminate Hyes.
  - rewrite Hno in Hyes. discriminate Hyes.
Qed.

(** [models/] holds a read-only [scene.bin]. *)
Lemma X12_witness :
  exists e,
    main LittleEndian
      (World (<[ "models/scene.bin" := File false [x01] ]> {[ "models" := Dir true ]})
         4096 [] 8)
    = (inl e,
       World (<[ "models/scene.bin" := File false [x01] ]> {[ "models" := Dir true ]})
         4096 [] 8) /\
    is_OSError e = true.
Proof.
  apply (X12_refused_open_changes_nothing LittleEndian
           (World (<[ "models/scene.bin" := File false [x01] ]> {[ "models" := Dir true ]})
              4096 [] 8)).
  vm_compute; reflexivity.
Defined.


